(** * jsxapi: the XAPI session (request correlation) and its section components

    A shallow embedding of
    - [src/xapi/index.js]: class [XAPI] ([constructor], [command],
      [handleResponse], [nextRequestId], [execute]);
    - the section components [Component], [Config], [Event], [Status] and
      the mixins [GettableImpl], [SettableImpl].

    JavaScript values are a small inductive type, objects are finite maps
    from property names to values, and the methods of [XAPI] are programs in
    a state-and-exception monad over the session. *)

From Stdlib Require Import ZArith Ascii DecimalString DecimalZ.
From stdpp Require Import gmap strings list fin_maps sorting.

Set Warnings "-register-all".

(** ** JavaScript values *)

(** The values that travel through the session: JSON-like data, plus
    [Error] objects (a backend may throw or emit one).  A number is an
    integer here; fractions, NaN and infinities are not modelled.  An object
    is the finite map of its own properties; the order in which a JavaScript
    engine enumerates them is not part of the model. *)
Inductive value : Type :=
  | VUndefined
  | VNull
  | VBool (b : bool)
  | VNum (n : Z)
  | VStr (s : string)
  | VArr (items : list value)
  | VObj (props : gmap string value)
  | VError (name message : string).

(** [Number.prototype.toString] on an integer: its decimal digits, as
    JavaScript prints every integer below 10^21. *)
Definition num_toString (n : Z) : string :=
  NilEmpty.string_of_int (Z.to_int n).

(** The abstract operation ToString; on an array it is
    [Array.prototype.join] with a comma, where [undefined] and [null]
    elements give the empty string. *)
Fixpoint toString (v : value) : string :=
  match v with
  | VUndefined => "undefined"
  | VNull => "null"
  | VBool b => if b then "true" else "false"
  | VNum n => num_toString n
  | VStr s => s
  | VArr items =>
      String.concat ","
        (map (λ x, match x with VUndefined | VNull => "" | _ => toString x end)
           items)
  | VObj _ => "[object Object]"
  | VError name message =>
      if String.eqb message "" then name
      else if String.eqb name "" then message
      else name +:+ ": " +:+ message
  end.

(** [o[key]] for the keys the session reads ([id], [method], [params],
    [result], [error]): the own property of an object, [undefined] when it is
    absent.  None of these names is defined on a prototype, or on a
    primitive, an array or an [Error]. *)
Definition prop (key : string) (o : value) : value :=
  match o with
  | VObj props => default VUndefined (props !! key)
  | _ => VUndefined
  end.

(** [{}.hasOwnProperty.call(o, key)] for the same keys. *)
Definition hasOwnProperty (o : value) (key : string) : bool :=
  match o with
  | VObj props => bool_decide (is_Some (props !! key))
  | _ => false
  end.

Definition is_undefined (v : value) : bool :=
  match v with VUndefined => true | _ => false end.

Definition is_nullish (v : value) : bool :=
  match v with VUndefined | VNull => true | _ => false end.

(** [v === s] for a string literal [s]. *)
Definition strict_eq_str (v : value) (s : string) : bool :=
  match v with VStr s' => String.eqb s' s | _ => false end.

(** The own enumerable properties that [Object.assign] copies from a
    source: those of an object, the indexed elements of an array, the
    indexed characters of a string, none of any other value. *)
Definition indexed {A} (f : A → value) (l : list A) : gmap string value :=
  list_to_map (imap (λ i x, (num_toString (Z.of_nat i), f x)) l).

Definition own_props (source : value) : gmap string value :=
  match source with
  | VObj props => props
  | VArr items => indexed id items
  | VStr s =>
      indexed (λ c, VStr (String c EmptyString)) (String.list_ascii_of_string s)
  | _ => ∅
  end.

(** [Object.assign(target, source)] on a target object: every own property
    of the source is set on the target, replacing a property of that name. *)
Definition Object_assign (target : gmap string value) (source : value)
    : value :=
  VObj (own_props source ∪ target).

(** ** Paths *)

(** [type Path = string | Array<string | number>]. *)
Inductive Segment : Type :=
  | SegStr (s : string)
  | SegNum (n : Z).

Inductive Path : Type :=
  | PathStr (s : string)
  | PathArr (segments : list Segment).

Definition segment_value (g : Segment) : value :=
  match g with SegStr s => VStr s | SegNum n => VNum n end.

(** A normalized path as the array value it is. *)
Definition path_value (segments : list Segment) : value :=
  VArr (segment_value <$> segments).

(** [segments.join(sep)]. *)
Definition join (sep : string) (segments : list Segment) : string :=
  String.concat sep ((toString ∘ segment_value) <$> segments).

(** ** The helpers the two source files import *)

Definition is_slash (c : ascii) : bool := Ascii.eqb c "/"%char.

Definition is_whitespace (c : ascii) : bool :=
  let n := nat_of_ascii c in
  (n =? 32)%nat || ((9 <=? n)%nat && (n <=? 13)%nat).

(** Splitting a string at every character that satisfies [sep]. *)
Fixpoint split_on (sep : ascii → bool) (s : string) : list string :=
  match s with
  | EmptyString => [EmptyString]
  | String c rest =>
      if sep c then EmptyString :: split_on sep rest
      else match split_on sep rest with
           | [] => [String c EmptyString]
           | piece :: pieces => String c piece :: pieces
           end
  end.

Definition has_slash (s : string) : bool :=
  existsb is_slash (String.list_ascii_of_string s).

(** Modelled from the spec: [./normalizePath] is imported by both source
    files and is not among them.  Spec 4.1: a sequence is copied unchanged;
    a string is split on "/" if any slash is present, else on whitespace;
    the segments are not otherwise validated. *)
Definition spec_normalizePath (path : Path) : list Segment :=
  match path with
  | PathArr segments => segments
  | PathStr s =>
      SegStr <$> split_on (if has_slash s then is_slash else is_whitespace) s
  end.

(** Modelled from the spec: [rpc.createRequest] of [./rpc] is imported by
    [index.js] and is not among the source files.  Spec 4.2 and 6: the
    outbound envelope is [{ id, method, params }], with [params] optional. *)
Definition spec_createRequest (id method : string) (params : value) : value :=
  let envelope : gmap string value :=
    {[ "id" := VStr id; "method" := VStr method ]} in
  VObj (if is_undefined params then envelope
        else <["params" := params]> envelope).

(** ** Promises, exceptions and the transport *)

(** What a [throw] carries, and what a promise is rejected with: a
    [TypeError] raised by the engine, or a value. *)
Inductive exn : Type :=
  | TypeError
  | Exn (v : value).

(** A promise is a cell of the promise store, named by its index. *)
Inductive PromiseState : Type :=
  | Pending
  | Fulfilled (v : value)
  | Rejected (e : exn).

(** The two resolving functions that [new Promise] hands to its executor. *)
Inductive Callback : Type :=
  | ResolveOf (p : nat)
  | RejectOf (p : nat).

(** An entry of [this.requests]: [{ resolve, reject }]. *)
Record PendingRequest : Type := {
  resolve : Callback;
  reject : Callback;
}.

(** The calls the session makes on its collaborators, in order: the
    backend, the feedback dispatcher ([this.feedback.dispatch], whose class
    is not among the source files) and its own observers ([this.emit]). *)
Inductive Arg : Type :=
  | ArgValue (v : value)
  | ArgThis.

Inductive Call : Type :=
  | BackendExecute (request : value)
  | FeedbackDispatch (params : value)
  | Emit (event : string) (args : list Arg).

(** The backend interface: [backend.execute(request)] updates the backend
    and returns, or throws.  A backend delivers its events from the event
    loop: it does not call back into the session while [execute] runs. *)
Class Backend (B : Type) : Type :=
  backend_execute : value → B → option exn * B.

(** The session: the fields of the [XAPI] instance, the promise store and
    the calls made so far.  [requestId] is a JavaScript number that only
    ever holds a positive integer; [+= 1] is taken as exact integer
    addition, as it is below 2^53. *)
Record Session (B : Type) : Type := {
  backend : B;
  requestId : Z;
  requests : gmap string PendingRequest;
  promises : list PromiseState;
  calls : list Call;
}.
Arguments backend {B} _.
Arguments requestId {B} _.
Arguments requests {B} _.
Arguments promises {B} _.
Arguments calls {B} _.

(** How a method call ends. *)
Inductive completion (A : Type) : Type :=
  | Normal (a : A)
  | Throw (e : exn).
Arguments Normal {A} _.
Arguments Throw {A} _.

(** A method of the session: it ends normally or throws, and leaves a
    session behind either way. *)
Definition M (B A : Type) : Type := Session B → completion A * Session B.

Definition ret {B A} (a : A) : M B A := λ s, (Normal a, s).

Definition throw {B A} (e : exn) : M B A := λ s, (Throw e, s).

Definition bind {B A A'} (c : M B A) (k : A → M B A') : M B A' :=
  λ s, match c s with
       | (Normal a, s') => k a s'
       | (Throw e, s') => (Throw e, s')
       end.

Notation "'let*' x ':=' c 'in' k" := (bind c (λ x, k))
  (at level 10, x binder, c at level 100, k at level 200).

Section XAPI.
Context {B : Type} `{!Backend B}.

(** [./normalizePath] and [rpc.createRequest], imported by the source. *)
Variable normalizePath : Path → list Segment.
Variable createRequest : string → string → value → value.

Definition set_requests
    (f : gmap string PendingRequest → gmap string PendingRequest)
    (s : Session B) : Session B :=
  {| backend := backend s; requestId := requestId s;
     requests := f (requests s); promises := promises s; calls := calls s |}.

Definition set_promises (f : list PromiseState → list PromiseState)
    (s : Session B) : Session B :=
  {| backend := backend s; requestId := requestId s;
     requests := requests s; promises := f (promises s); calls := calls s |}.

Definition record_call (c : Call) (s : Session B) : Session B :=
  {| backend := backend s; requestId := requestId s;
     requests := requests s; promises := promises s;
     calls := calls s ++ [c] |}.

(** *** Promises *)

(** Settling a promise: only a pending promise changes state. *)
Definition settle (p : nat) (st : PromiseState) (l : list PromiseState)
    : list PromiseState :=
  match l !! p with
  | Some Pending => <[p := st]> l
  | _ => l
  end.

(** Calling a resolving function with a value (a thenable is never
    passed: the values are data). *)
Definition settle_with (f : Callback) (v : value)
    : list PromiseState → list PromiseState :=
  match f with
  | ResolveOf p => settle p (Fulfilled v)
  | RejectOf p => settle p (Rejected (Exn v))
  end.

Definition call (f : Callback) (v : value) : M B unit :=
  λ s, (Normal (), set_promises (settle_with f v) s).

(** [new Promise(executor)]: the executor runs at once; if it throws, the
    promise is rejected with what it threw. *)
Definition new_Promise (executor : Callback → Callback → M B unit)
    : M B nat :=
  λ s, let p := length (promises s) in
       match executor (ResolveOf p) (RejectOf p)
               (set_promises (λ l, l ++ [Pending]) s) with
       | (Normal _, s') => (Normal p, s')
       | (Throw e, s') => (Normal p, set_promises (settle p (Rejected e)) s')
       end.

(** *** Collaborators *)

(** [this.backend.execute(request)]. *)
Definition backend_call (request : value) : M B unit :=
  λ s, let s1 := record_call (BackendExecute request) s in
       let '(thrown, b) := backend_execute request (backend s1) in
       let s2 := {| backend := b; requestId := requestId s1;
                    requests := requests s1; promises := promises s1;
                    calls := calls s1 |} in
       match thrown with
       | None => (Normal (), s2)
       | Some e => (Throw e, s2)
       end.

(** [this.feedback.dispatch(params)]: the call is recorded; the
    dispatcher and the listeners it runs are taken to return. *)
Definition feedback_dispatch (params : value) : M B unit :=
  λ s, (Normal (), record_call (FeedbackDispatch params) s).

(** [this.emit(event, ...args)]. *)
Definition emit (event : string) (args : list Arg) : M B unit :=
  λ s, (Normal (), record_call (Emit event args) s).

(** *** class XAPI *)

(** [const { resolve } = this.requests[id]] and its [reject] twin: the
    property key is [ToString(id)]; destructuring [undefined] throws a
    [TypeError].  (A key inherited from [Object.prototype] yields an
    object without [resolve] and [reject], and calling the missing
    function throws a [TypeError] as well.) *)
Definition request_entry (id : value) : M B PendingRequest :=
  λ s, match requests s !! toString id with
       | Some entry => (Normal entry, s)
       | None => (Throw TypeError, s)
       end.

(** [delete this.requests[id]]. *)
Definition delete_request (id : value) : M B unit :=
  λ s, (Normal (), set_requests (delete (toString id)) s).

(** [const { id, method } = response]: destructuring [undefined] or
    [null] throws a [TypeError]. *)
Definition destructure (response : value) : M B (value * value) :=
  if is_nullish response then throw TypeError
  else ret (prop "id" response, prop "method" response).

Definition handleResponse (response : value) : M B unit :=
  let* '(id, method) := destructure response in
  if strict_eq_str method "xFeedback/Event" then
    feedback_dispatch (prop "params" response)
  else
    let* _ :=
      if hasOwnProperty response "result" then
        let* entry := request_entry id in
        call (resolve entry) (prop "result" response)
      else
        let* entry := request_entry id in
        call (reject entry) (prop "error" response) in
    delete_request id.

Definition nextRequestId : M B string :=
  λ s, (Normal (num_toString (requestId s)),
        {| backend := backend s; requestId := (requestId s + 1)%Z;
           requests := requests s; promises := promises s;
           calls := calls s |}).

Definition execute (method : string) (params : value) : M B nat :=
  new_Promise (λ resolve reject,
    let* id := nextRequestId in
    let request := createRequest id method params in
    let* _ := backend_call request in
    λ s, (Normal (),
          set_requests <[id := {| resolve := resolve; reject := reject |}]> s)).

Definition command (path : Path) (params body : value) : M B nat :=
  let apiPath := join "/" (normalizePath path) in
  let method := "xCommand/" +:+ apiPath in
  let executeParams :=
    if is_undefined body then params
    else Object_assign {[ "body" := body ]} params in
  execute method executeParams.

(** The constructor: the request counter starts at 1 and no request is
    pending.  (The sections and proxies it creates hold no state of their
    own here.) *)
Definition new_XAPI (b : B) : Session B :=
  {| backend := b; requestId := 1; requests := ∅; promises := [];
     calls := [] |}.

(** The listeners the constructor registers on the backend, as the
    reaction of the session to [backend.emit(event, ...args)]; a listener
    reads the first argument only. *)
Definition backend_emits (event : string) (args : list value) : M B unit :=
  let arg := default VUndefined (head args) in
  if String.eqb event "close" then emit "close" []
  else if String.eqb event "error" then emit "error" [ArgValue arg]
  else if String.eqb event "ready" then emit "ready" [ArgThis]
  else if String.eqb event "data" then handleResponse arg
  else ret ().

(** *** Section components and mixins *)

(** [Component.normalizePath]; [!prefix] holds of the empty string only. *)
Definition Component_normalizePath (prefix : string) (path : Path)
    : list Segment :=
  let normalized := normalizePath path in
  if String.eqb prefix "" then normalized
  else [SegStr prefix] ++ normalized.

(** [GettableImpl.get] and [SettableImpl.set], for the [normalizePath]
    the mixin was constructed with. *)
Definition GettableImpl_get (normalize : Path → list Segment) (path : Path)
    : M B nat :=
  execute "xGet" (VObj {[ "Path" := path_value (normalize path) ]}).

Definition SettableImpl_set (normalize : Path → list Segment) (path : Path)
    (value : value) : M B nat :=
  execute "xSet"
    (VObj {[ "Path" := path_value (normalize path); "Value" := value ]}).

(** [Config] is the component with prefix "Configuration", [Status] the
    one with prefix "Status"; each hands its own [normalizePath] to its
    mixins. *)
Definition Config_get : Path → M B nat :=
  GettableImpl_get (Component_normalizePath "Configuration").

Definition Config_set : Path → value → M B nat :=
  SettableImpl_set (Component_normalizePath "Configuration").

Definition Status_get : Path → M B nat :=
  GettableImpl_get (Component_normalizePath "Status").

End XAPI.

(** ** Driving a session *)

(** A backend that follows a script: each call to [execute] consumes the
    next outcome, and returns normally once the script is over. *)
#[export] Instance scripted_backend : Backend (list (option exn)) :=
  λ _ script,
    match script with
    | [] => (None, [])
    | outcome :: rest => (outcome, rest)
    end.

(** What happens to a session from outside: a caller invokes [execute]
    ([command], [get] and [set] all end there), or the backend emits an
    event. *)
Inductive Action : Type :=
  | CallExecute (method : string) (params : value)
  | BackendEmits (event : string) (args : list value).

Section Driving.
Context {B : Type} `{!Backend B}.
Variable createRequest : string → string → value → value.

Definition step (s : Session B) (a : Action) : Session B :=
  match a with
  | CallExecute method params => (execute createRequest method params s).2
  | BackendEmits event args => (backend_emits event args s).2
  end.

Definition run (actions : list Action) (s : Session B) : Session B :=
  foldl step s actions.

(** Calls of [execute] in a row; the promises they return. *)
Fixpoint executes (reqs : list (string * value)) : M B (list nat) :=
  match reqs with
  | [] => ret []
  | (method, params) :: rest =>
      let* p := execute createRequest method params in
      let* ps := executes rest in
      ret (p :: ps)
  end.

(** The backend delivers a correlated response to the request [key]. *)
Definition answers (key : string) (a : Action) : bool :=
  match a with
  | BackendEmits event args =>
      let response := default VUndefined (head args) in
      String.eqb event "data"
      && negb (strict_eq_str (prop "method" response) "xFeedback/Event")
      && String.eqb (toString (prop "id" response)) key
  | CallExecute _ _ => false
  end.

End Driving.

(** ** Outcomes *)

Section Outcomes.
Context {B : Type} `{!Backend B}.
Variable createRequest : string → string → value → value.

(** The session that [execute] leaves behind. *)
Definition executed (method : string) (params : value) (s : Session B)
    : Session B :=
  let id := num_toString (requestId s) in
  let p := length (promises s) in
  let request := createRequest id method params in
  match backend_execute request (backend s) with
  | (None, b) =>
      {| backend := b; requestId := (requestId s + 1)%Z;
         requests :=
           <[id := {| resolve := ResolveOf p; reject := RejectOf p |}]>
             (requests s);
         promises := promises s ++ [Pending];
         calls := calls s ++ [BackendExecute request] |}
  | (Some e, b) =>
      {| backend := b; requestId := (requestId s + 1)%Z;
         requests := requests s;
         promises := promises s ++ [Rejected e];
         calls := calls s ++ [BackendExecute request] |}
  end.

(** The session that the correlator leaves behind when the entry of the
    request is [entry]. *)
Definition correlated (response : value) (entry : PendingRequest)
    (s : Session B) : Session B :=
  let settled :=
    if hasOwnProperty response "result"
    then settle_with (resolve entry) (prop "result" response)
    else settle_with (reject entry) (prop "error" response) in
  set_requests (delete (toString (prop "id" response)))
    (set_promises settled s).
End Outcomes.

(** Every pending entry sits under the decimal string of a number below the
    counter and holds the two resolving functions of one promise, which is
    still pending; two entries never hold the same promise. *)
Definition session_inv {B} (s : Session B) : Prop :=
  (∀ key entry, requests s !! key = Some entry →
     ∃ n p, key = num_toString n ∧ (n < requestId s)%Z
            ∧ entry = {| resolve := ResolveOf p; reject := RejectOf p |}
            ∧ promises s !! p = Some Pending)
  ∧ (∀ k1 k2 e1 e2,
       requests s !! k1 = Some e1 → requests s !! k2 = Some e2 →
       resolve e1 = resolve e2 → k1 = k2).

(** The number a request id spells, and the order of ids by that number. *)
Definition id_number (id : string) : option Z :=
  Z.of_int <$> NilEmpty.int_of_string id.

Definition id_lt (id1 id2 : string) : Prop :=
  ∃ n1 n2,
    id_number id1 = Some n1 ∧ id_number id2 = Some n2 ∧ (n1 < n2)%Z.

(** The ids a session hands out in its next [n] allocations. *)
Definition next_ids {B} (s : Session B) (n : nat) : list string :=
  (λ i, num_toString (requestId s + Z.of_nat i)) <$> seq 0 n.

(** ** Histories and what the collaborators see of them *)

(** The calls of [execute] in a history, in order. *)
Definition execute_calls (history : list Action) : list (string * value) :=
  omap (λ a, match a with
             | CallExecute method params => Some (method, params)
             | BackendEmits _ _ => None
             end) history.

(** The [params] that a backend event carries to the feedback dispatcher,
    when it is a [data] event whose payload has the feedback method. *)
Definition feedback_params (a : Action) : option value :=
  match a with
  | BackendEmits event args =>
      let response := default VUndefined (head args) in
      if String.eqb event "data"
         && strict_eq_str (prop "method" response) "xFeedback/Event"
      then Some (prop "params" response)
      else None
  | CallExecute _ _ => None
  end.

(** The emission that a backend event causes on the session, when it is
    one of the three lifecycle events. *)
Definition signal (a : Action) : option (string * list Arg) :=
  match a with
  | BackendEmits event args =>
      if String.eqb event "close" then Some ("close", [])
      else if String.eqb event "error"
      then Some ("error", [ArgValue (default VUndefined (head args))])
      else if String.eqb event "ready" then Some ("ready", [ArgThis])
      else None
  | CallExecute _ _ => None
  end.

(** The three kinds of calls in a call log. *)
Definition backend_requests (l : list Call) : list value :=
  omap (λ c, match c with BackendExecute request => Some request | _ => None end)
    l.

Definition dispatched (l : list Call) : list value :=
  omap (λ c, match c with FeedbackDispatch params => Some params | _ => None end)
    l.

Definition emitted (l : list Call) : list (string * list Arg) :=
  omap (λ c, match c with Emit event args => Some (event, args) | _ => None end)
    l.

(** ** Accounting *)

(** The counter is positive, every pending entry sits under the decimal
    string of a positive number, and every pending promise has its entry. *)
Definition session_accounting {B} (s : Session B) : Prop :=
  (1 ≤ requestId s)%Z
  ∧ (∀ key, is_Some (requests s !! key) →
       ∃ n, key = num_toString n ∧ (1 ≤ n)%Z)
  ∧ (∀ p, promises s !! p = Some Pending →
       ∃ key, requests s !! key
              = Some {| resolve := ResolveOf p; reject := RejectOf p |}).

(** ** Request ids *)

Lemma num_toString_inj (a b : Z) : num_toString a = num_toString b → a = b.
Proof.
  unfold num_toString. intros E.
  apply (f_equal NilEmpty.int_of_string) in E.
  rewrite !NilEmpty.isi in E.
  injection E as E.
  apply (f_equal Z.of_int) in E.
  by rewrite !DecimalZ.of_to in E.
Qed.

Lemma id_number_toString (n : Z) : id_number (num_toString n) = Some n.
Proof.
  unfold id_number, num_toString.
  by rewrite NilEmpty.isi; simpl; rewrite DecimalZ.of_to.
Qed.

Lemma id_lt_toString (a b : Z) :
  id_lt (num_toString a) (num_toString b) ↔ (a < b)%Z.
Proof.
  unfold id_lt. rewrite !id_number_toString. split.
  - intros (n1 & n2 & [= <-] & [= <-] & Hlt). exact Hlt.
  - intros Hlt. by exists a, b.
Qed.

Lemma next_ids_length {B} (s : Session B) (n : nat) :
  length (next_ids s n) = n.
Proof. unfold next_ids. by rewrite length_fmap, length_seq. Qed.

Lemma next_ids_lookup {B} (s : Session B) (n i : nat) :
  (i < n)%nat →
  next_ids s n !! i = Some (num_toString (requestId s + Z.of_nat i)).
Proof.
  intros Hi. unfold next_ids.
  by rewrite list_lookup_fmap, lookup_seq_lt.
Qed.

Lemma next_ids_sorted {B} (s : Session B) (n : nat) :
  StronglySorted id_lt (next_ids s n).
Proof.
  unfold next_ids. generalize 0%nat as k.
  induction n as [|n IH]; intros k; simpl; constructor.
  - apply IH.
  - apply Forall_fmap, Forall_forall. intros j Hj.
    apply elem_of_seq in Hj. simpl.
    apply id_lt_toString. lia.
Qed.

Lemma next_ids_NoDup {B} (s : Session B) (n : nat) : NoDup (next_ids s n).
Proof.
  unfold next_ids. apply NoDup_fmap_2; [|apply NoDup_seq].
  intros i j E. apply num_toString_inj in E. lia.
Qed.

(** ** The methods, computed *)

Section Computed.
Context {B : Type} `{!Backend B}.
Variable createRequest : string → string → value → value.

Lemma settle_fresh (l : list PromiseState) (st : PromiseState) :
  settle (length l) st (l ++ [Pending]) = l ++ [st].
Proof.
  unfold settle.
  rewrite lookup_app_r, Nat.sub_diag by lia. simpl.
  replace (length l) with (length l + 0)%nat at 1 by lia.
  by rewrite insert_app_r.
Qed.

Lemma settle_pending (l : list PromiseState) (p : nat) (st : PromiseState) :
  l !! p = Some Pending → settle p st l = <[p := st]> l.
Proof. unfold settle. by intros ->. Qed.


Lemma execute_eq (method : string) (params : value) (s : Session B) :
  execute createRequest method params s
  = (Normal (length (promises s)), executed createRequest method params s).
Proof.
  unfold execute, executed, new_Promise, bind, nextRequestId, backend_call.
  simpl.
  destruct (backend_execute _ (backend s)) as [[e|] b]; simpl.
  - unfold set_promises; simpl. by rewrite settle_fresh.
  - reflexivity.
Qed.


Lemma handleResponse_eq (props : gmap string value) (s : Session B) :
  let response := VObj props in
  handleResponse response s
  = if strict_eq_str (prop "method" response) "xFeedback/Event"
    then (Normal (), record_call (FeedbackDispatch (prop "params" response)) s)
    else match requests s !! toString (prop "id" response) with
         | Some entry => (Normal (), correlated response entry s)
         | None => (Throw TypeError, s)
         end.
Proof.
  cbv zeta. unfold handleResponse, bind, destructure, ret.
  change (is_nullish (VObj props)) with false. cbv beta iota.
  destruct (strict_eq_str _ _); [reflexivity|].
  unfold correlated, request_entry.
  destruct (hasOwnProperty _ _);
    destruct (requests s !! _) as [entry|]; reflexivity.
Qed.
End Computed.

(** ** The invariant of a session *)



Section Invariant.
Context {B : Type} `{!Backend B}.
Variable createRequest : string → string → value → value.

Lemma handleResponse_nullish (response : value) (s : Session B) :
  is_nullish response = true →
  handleResponse response s = (Throw TypeError, s).
Proof. by destruct response. Qed.

Lemma handleResponse_value (response : value) (s : Session B) :
  is_nullish response = false →
  handleResponse response s
  = if strict_eq_str (prop "method" response) "xFeedback/Event"
    then (Normal (), record_call (FeedbackDispatch (prop "params" response)) s)
    else match requests s !! toString (prop "id" response) with
         | Some entry => (Normal (), correlated response entry s)
         | None => (Throw TypeError, s)
         end.
Proof.
  intros Hn.
  destruct response; try discriminate Hn;
    try (unfold handleResponse, bind, destructure, ret; simpl;
         unfold correlated, request_entry; simpl;
         by destruct (requests s !! _)).
  apply handleResponse_eq.
Qed.

Lemma new_XAPI_inv (b : B) : session_inv (new_XAPI b).
Proof. split; intros *; simpl; by rewrite lookup_empty. Qed.

Lemma record_call_inv (c : Call) (s : Session B) :
  session_inv s → session_inv (record_call c s).
Proof. by intros Hs. Qed.

Lemma executed_inv (method : string) (params : value) (s : Session B) :
  session_inv s → session_inv (executed createRequest method params s).
Proof.
  intros [Hent Hinj]. unfold executed.
  destruct (backend_execute _ (backend s)) as [[e|] b]; split; simpl.
  - intros key entry Hk.
    destruct (Hent _ _ Hk) as (n & p & -> & Hn & -> & Hp).
    exists n, p. repeat split; [lia|].
    by rewrite lookup_app_l by (by eapply lookup_lt_Some).
  - exact Hinj.
  - intros key entry Hk.
    destruct (decide (key = num_toString (requestId s))) as [->|Hne].
    + rewrite lookup_insert_eq in Hk. injection Hk as <-.
      exists (requestId s), (length (promises s)).
      repeat split; [lia|].
      by rewrite lookup_app_r, Nat.sub_diag by lia.
    + rewrite lookup_insert_ne in Hk by done.
      destruct (Hent _ _ Hk) as (n & p & -> & Hn & -> & Hp).
      exists n, p. repeat split; [lia|].
      by rewrite lookup_app_l by (by eapply lookup_lt_Some).
  - assert (Hold : ∀ k e, requests s !! k = Some e →
              resolve e ≠ ResolveOf (length (promises s))).
    { intros k e Hk. destruct (Hent _ _ Hk) as (n & p & _ & _ & -> & Hp).
      simpl. apply lookup_lt_Some in Hp. intros [= ->]. lia. }
    intros k1 k2 e1 e2 H1 H2 Heq.
    destruct (decide (k1 = num_toString (requestId s))) as [->|Hne1];
      destruct (decide (k2 = num_toString (requestId s))) as [->|Hne2];
      try done.
    + rewrite lookup_insert_eq in H1. injection H1 as <-.
      rewrite lookup_insert_ne in H2 by done.
      by destruct (Hold _ _ H2).
    + rewrite lookup_insert_eq in H2. injection H2 as <-.
      rewrite lookup_insert_ne in H1 by done.
      by destruct (Hold _ _ H1).
    + rewrite lookup_insert_ne in H1, H2 by done. by eapply Hinj.
Qed.

Lemma correlated_inv (response : value) (entry : PendingRequest)
    (s : Session B) :
  session_inv s →
  requests s !! toString (prop "id" response) = Some entry →
  session_inv (correlated response entry s).
Proof.
  intros [Hent Hinj] Hkey.
  destruct (Hent _ _ Hkey) as (n0 & p0 & Hk0 & Hn0 & -> & Hp0).
  assert (Hsettled : ∃ st, promises (correlated response
            {| resolve := ResolveOf p0; reject := RejectOf p0 |} s)
            = <[p0 := st]> (promises s)).
  { unfold correlated. simpl.
    destruct (hasOwnProperty _ _); simpl; eexists; by apply settle_pending. }
  destruct Hsettled as [st Hst].
  split.
  - intros key entry Hk. unfold correlated in Hk. simpl in Hk.
    apply lookup_delete_Some in Hk as [Hne Hk].
    destruct (Hent _ _ Hk) as (n & p & -> & Hn & -> & Hp).
    exists n, p. repeat split; [done|]. rewrite Hst.
    rewrite list_lookup_insert_ne; [done|].
    intros ->. by apply Hne, (Hinj _ _ _ _ Hkey Hk).
  - intros k1 k2 e1 e2 H1 H2. unfold correlated in H1, H2. simpl in H1, H2.
    apply lookup_delete_Some in H1 as [_ H1].
    apply lookup_delete_Some in H2 as [_ H2].
    by eapply Hinj.
Qed.

Lemma handleResponse_inv (response : value) (s : Session B) :
  session_inv s → session_inv (handleResponse response s).2.
Proof.
  intros Hs. destruct (is_nullish response) eqn:Hn.
  - by rewrite handleResponse_nullish.
  - rewrite handleResponse_value by done.
    destruct (strict_eq_str _ _); [done|].
    destruct (requests s !! _) as [entry|] eqn:Hk; [|done].
    by apply correlated_inv.
Qed.

Lemma step_inv (s : Session B) (a : Action) :
  session_inv s → session_inv (step createRequest s a).
Proof.
  intros Hs. destruct a as [method params|event args]; simpl.
  - rewrite execute_eq. by apply executed_inv.
  - unfold backend_emits.
    destruct (String.eqb event "close"); [exact Hs|].
    destruct (String.eqb event "error"); [exact Hs|].
    destruct (String.eqb event "ready"); [exact Hs|].
    destruct (String.eqb event "data"); [|exact Hs].
    by apply handleResponse_inv.
Qed.

Lemma run_inv (actions : list Action) (s : Session B) :
  session_inv s → session_inv (run createRequest actions s).
Proof.
  revert s. induction actions as [|a actions IH]; intros s Hs; [done|].
  apply IH. by apply step_inv.
Qed.

(** An entry stays where it is until its response arrives. *)
Lemma step_keeps_entry (s : Session B) (a : Action) (key : string)
    (entry : PendingRequest) :
  session_inv s →
  requests s !! key = Some entry →
  answers key a = false →
  requests (step createRequest s a) !! key = Some entry.
Proof.
  intros [Hent _] Hk Ha. destruct a as [method params|event args]; simpl.
  - rewrite execute_eq. unfold executed.
    destruct (backend_execute _ (backend s)) as [[e|] b]; simpl; [done|].
    rewrite lookup_insert_ne; [done|].
    destruct (Hent _ _ Hk) as (n & p & -> & Hn & _).
    intros E. apply num_toString_inj in E. lia.
  - unfold backend_emits. simpl in Ha.
    destruct (String.eqb event "close"); [exact Hk|].
    destruct (String.eqb event "error"); [exact Hk|].
    destruct (String.eqb event "ready"); [exact Hk|].
    destruct (String.eqb event "data") eqn:Hev; [|exact Hk].
    simpl in Ha.
    set (response := default VUndefined (head args)) in *.
    destruct (is_nullish response) eqn:Hn.
    { by rewrite handleResponse_nullish. }
    rewrite handleResponse_value by done.
    destruct (strict_eq_str _ _); [done|]. simpl in Ha.
    destruct (requests s !! toString _) as [entry'|] eqn:Hk'; [|done].
    unfold correlated. simpl.
    rewrite lookup_delete_ne; [done|].
    intros E. rewrite E, String.eqb_refl in Ha. done.
Qed.

Lemma run_keeps_entry (actions : list Action) (s : Session B)
    (key : string) (entry : PendingRequest) :
  session_inv s →
  requests s !! key = Some entry →
  forallb (λ a, negb (answers key a)) actions = true →
  requests (run createRequest actions s) !! key = Some entry.
Proof.
  revert s. induction actions as [|a actions IH]; intros s Hs Hk Ha; [done|].
  simpl in Ha. apply andb_true_iff in Ha as [Ha Hrest].
  apply negb_true_iff in Ha.
  apply IH; [by apply step_inv|by apply step_keeps_entry|done].
Qed.
End Invariant.

(** ** Request correlation *)

Section Correlation.
Context {B : Type} `{!Backend B}.
Variable createRequest : string → string → value → value.

(** C1.  Take any session history, a call of [execute] in it that handed
    its envelope to the backend and returned the promise [p], and any
    further history in which the backend delivers no response to that
    request.  When the backend then delivers a correlated response
    carrying the id of the request, the entry of the request is still in
    [this.requests] and [p] is still pending, and [handleResponse]
    returns normally, having removed exactly that entry and changed
    exactly the promise [p]: to fulfilled with the [result] of the
    envelope when it has one, to rejected with its [error] when it has
    that instead; no other promise changes.  The entry is then gone, and
    a second delivery of the response finds none and throws. *)
Theorem handleResponse_settles_the_request
    (b : B) (before between : list Action) (method : string)
    (params : value) (p : nat) (props : gmap string value) :
  let s0 := run createRequest before (new_XAPI b) in
  let id := num_toString (requestId s0) in
  let s1 := (execute createRequest method params s0).2 in
  let s2 := run createRequest between s1 in
  let response := VObj props in
  (execute createRequest method params s0).1 = Normal p →
  (backend_execute (createRequest id method params) (backend s0)).1 = None →
  forallb (λ a, negb (answers id a)) between = true →
  strict_eq_str (prop "method" response) "xFeedback/Event" = false →
  toString (prop "id" response) = id →
  requests s2 !! id = Some {| resolve := ResolveOf p; reject := RejectOf p |}
  ∧ promises s2 !! p = Some Pending
  ∧ ∃ s3,
      handleResponse response s2 = (Normal (), s3)
      ∧ requests s3 = delete id (requests s2)
      ∧ (∀ result, props !! "result" = Some result →
           promises s3 = <[p := Fulfilled result]> (promises s2))
      ∧ (∀ error,
           props !! "result" = None → props !! "error" = Some error →
           promises s3 = <[p := Rejected (Exn error)]> (promises s2))
      ∧ handleResponse response s3 = (Throw TypeError, s3).
Proof.
  intros s0 id s1 s2 response Hret Hsent Hbetween Hmethod Hid.
  assert (Hs0 : session_inv s0) by apply run_inv, new_XAPI_inv.
  assert (Hs1 : session_inv s1).
  { unfold s1. rewrite execute_eq. by apply executed_inv. }
  assert (Hentry1 : requests s1 !! id
            = Some {| resolve := ResolveOf p; reject := RejectOf p |}).
  { unfold s1. rewrite execute_eq in Hret |- *. simpl in Hret.
    injection Hret as <-. unfold executed. fold id.
    destruct (backend_execute _ (backend s0)) as [[e|] b']; [done|].
    simpl. by rewrite lookup_insert_eq. }
  assert (Hs2 : session_inv s2) by by apply run_inv.
  assert (Hentry2 : requests s2 !! id
            = Some {| resolve := ResolveOf p; reject := RejectOf p |})
    by by apply run_keeps_entry.
  assert (Hp : promises s2 !! p = Some Pending).
  { destruct Hs2 as [Hent _].
    destruct (Hent _ _ Hentry2) as (n & p' & _ & _ & [= ->] & Hp'). done. }
  split; [done|]. split; [done|].
  subst response.
  pose proof (handleResponse_eq props s2) as Heq. cbv zeta in Heq.
  rewrite Hmethod, Hid, Hentry2 in Heq.
  eexists. split; [exact Heq|].
  unfold correlated. rewrite Hid. simpl.
  split; [done|]. split; [|split].
  - intros result Hres. rewrite Hres.
    rewrite bool_decide_true by done. simpl.
    by apply settle_pending.
  - intros error Hnone Herr. rewrite Hnone, Herr.
    rewrite bool_decide_false by by intros [? ?].
    simpl. by apply settle_pending.
  - match goal with
    | |- handleResponse _ ?s3 = _ =>
        pose proof (handleResponse_eq props s3) as Heq'
    end.
    cbv zeta in Heq'. rewrite Heq', Hmethod, Hid. simpl.
    by rewrite lookup_delete_eq.
Qed.
End Correlation.

Section Responses.
Context {B : Type} `{!Backend B}.

(** C2, as the code has it.  A correlated response whose id has no entry
    in [this.requests] is not dropped: [handleResponse] throws a
    [TypeError].  It throws before it calls anything or deletes
    anything, so the session is left exactly as it was: no promise is
    settled and [this.requests] is unchanged. *)
Theorem handleResponse_unknown_id_throws (response : value) (s : Session B) :
  strict_eq_str (prop "method" response) "xFeedback/Event" = false →
  requests s !! toString (prop "id" response) = None →
  handleResponse response s = (Throw TypeError, s).
Proof.
  intros Hmethod Hid. destruct (is_nullish response) eqn:Hn.
  - by apply handleResponse_nullish.
  - by rewrite handleResponse_value, Hmethod, Hid.
Qed.

(** C5.  Every inbound envelope (an object, as the backend decodes one)
    takes exactly one of two ways, chosen by its [method] alone.  When [method] is "xFeedback/Event" the feedback
    dispatcher is called once with the [params] of the envelope, and
    nothing else of the session changes.  Otherwise the envelope is a
    correlated response: the dispatcher is not called, and the entry
    under the id of the envelope is looked up, settled and removed (a
    missing entry makes the lookup throw). *)
Theorem handleResponse_routes (props : gmap string value) (s : Session B) :
  let response := VObj props in
  if strict_eq_str (prop "method" response) "xFeedback/Event"
  then handleResponse response s
       = (Normal (), record_call (FeedbackDispatch (prop "params" response)) s)
  else calls (handleResponse response s).2 = calls s
       ∧ handleResponse response s
         = match requests s !! toString (prop "id" response) with
           | Some entry => (Normal (), correlated response entry s)
           | None => (Throw TypeError, s)
           end.
Proof.
  intros response. pose proof (handleResponse_eq props s) as Heq.
  cbv zeta in Heq. fold response in Heq.
  destruct (strict_eq_str _ _); [exact Heq|].
  split; [|exact Heq]. rewrite Heq.
  by destruct (requests s !! _).
Qed.

(** C9.  A correlated response without a [result] field takes the error
    branch whether or not it has an [error] field: the promise of the
    matching entry is rejected with [response.error], which is
    [undefined] when the field is absent, and the entry is removed. *)
Theorem handleResponse_without_result_rejects
    (props : gmap string value) (s : Session B) (p : nat) :
  let response := VObj props in
  let id := toString (prop "id" response) in
  strict_eq_str (prop "method" response) "xFeedback/Event" = false →
  props !! "result" = None →
  requests s !! id = Some {| resolve := ResolveOf p; reject := RejectOf p |} →
  promises s !! p = Some Pending →
  handleResponse response s
  = (Normal (),
     set_requests (delete id)
       (set_promises <[p := Rejected (Exn (prop "error" response))]> s))
  ∧ (props !! "error" = None → prop "error" response = VUndefined).
Proof.
  intros response id Hmethod Hres Hentry Hp. split.
  - pose proof (handleResponse_eq props s) as Heq. cbv zeta in Heq.
    fold response in Heq. fold id in Heq.
    rewrite Heq, Hmethod, Hentry. unfold correlated. fold id.
    unfold hasOwnProperty, response at 1. rewrite Hres.
    rewrite bool_decide_false by by intros [? ?].
    simpl. unfold set_promises. simpl. by rewrite settle_pending.
  - intros Herr. simpl. by rewrite Herr.
Qed.

(** C8.  The listeners registered on the backend re-emit [close],
    [error] and [ready] on the session, one emission for one emission
    and under the same name: [close] without arguments, [error] with the
    error it received, [ready] with the session itself.  Nothing else of
    the session changes. *)
Theorem backend_signals_pass_through
    (s : Session B) (error : value) (args : list value) :
  backend_emits "close" args s = (Normal (), record_call (Emit "close" []) s)
  ∧ backend_emits "error" (error :: args) s
    = (Normal (), record_call (Emit "error" [ArgValue error]) s)
  ∧ backend_emits "ready" args s
    = (Normal (), record_call (Emit "ready" [ArgThis]) s)
  ∧ ∀ c, calls (record_call c s) = calls s ++ [c]
         ∧ requests (record_call c s) = requests s
         ∧ promises (record_call c s) = promises s.
Proof. by repeat split. Qed.
End Responses.

Section Requests.
Context {B : Type} `{!Backend B}.
Variable normalizePath : Path → list Segment.
Variable createRequest : string → string → value → value.

Lemma requestId_fresh (s : Session B) :
  session_inv s → requests s !! num_toString (requestId s) = None.
Proof.
  intros [Hent _].
  destruct (requests s !! _) as [entry|] eqn:Hk; [|done].
  destruct (Hent _ _ Hk) as (n & p & E & Hn & _).
  apply num_toString_inj in E. lia.
Qed.

Lemma next_ids_S (s s' : Session B) (n : nat) :
  requestId s' = (requestId s + 1)%Z →
  next_ids s (S n) = num_toString (requestId s) :: next_ids s' n.
Proof.
  intros E. unfold next_ids. simpl. rewrite Z.add_0_r. f_equal.
  rewrite <- fmap_S_seq, <- list_fmap_compose.
  apply list_fmap_ext. intros _ i _. simpl. rewrite E. f_equal. lia.
Qed.

Lemma executed_requestId (method : string) (params : value) (s : Session B) :
  requestId (executed createRequest method params s) = (requestId s + 1)%Z.
Proof. unfold executed. by destruct (backend_execute _ _) as [[e|] b]. Qed.

Lemma executed_calls (method : string) (params : value) (s : Session B) :
  calls (executed createRequest method params s)
  = calls s ++ [BackendExecute
                  (createRequest (num_toString (requestId s)) method params)].
Proof. unfold executed. by destruct (backend_execute _ _) as [[e|] b]. Qed.

Lemma executes_calls (reqs : list (string * value)) (s : Session B) :
  calls (executes createRequest reqs s).2
  = calls s ++ zip_with (λ id '(method, params),
                           BackendExecute (createRequest id method params))
                 (next_ids s (length reqs)) reqs.
Proof.
  revert s. induction reqs as [|[method params] reqs IH]; intros s.
  - simpl. by rewrite app_nil_r.
  - change (length ((method, params) :: reqs)) with (S (length reqs)).
    rewrite (next_ids_S s (executed createRequest method params s))
      by apply executed_requestId.
    simpl executes. unfold bind. rewrite execute_eq.
    specialize (IH (executed createRequest method params s)).
    rewrite executed_calls in IH.
    destruct (executes createRequest reqs _) as [[ps|e] s'];
      simpl in IH |- *; by rewrite IH, <- app_assoc.
Qed.

(** C3.  Take a session at any point of its life: constructed, then
    driven by any history of calls and backend events.  However many calls
    of [execute] it then receives in a row, the ids it passes to
    [rpc.createRequest], in issuance order, are the decimal strings of the
    counter and its successors: pairwise distinct, and strictly increasing
    as numbers.  The first id of a freshly constructed session is "1".
    And at every such point the id that the next [execute] allocates is
    the id of no pending request. *)
Theorem request_ids_distinct_and_increasing :
  (∀ (b : B) (history : list Action) (reqs : list (string * value)),
     let s := run createRequest history (new_XAPI b) in
     let ids := next_ids s (length reqs) in
     calls (executes createRequest reqs s).2
     = calls s ++ zip_with (λ id '(method, params),
                              BackendExecute (createRequest id method params))
                    ids reqs
     ∧ length ids = length reqs
     ∧ NoDup ids
     ∧ StronglySorted id_lt ids)
  ∧ (∀ (b : B) (method : string) (params : value),
       calls (execute createRequest method params (new_XAPI b)).2
       = [BackendExecute (createRequest "1" method params)])
  ∧ (∀ (b : B) (history : list Action),
       let s := run createRequest history (new_XAPI b) in
       requests s !! num_toString (requestId s) = None).
Proof.
  split; [|split].
  - intros b history reqs s ids. split; [apply executes_calls|].
    split; [apply next_ids_length|].
    split; [apply next_ids_NoDup|apply next_ids_sorted].
  - intros b method params. rewrite execute_eq. cbn [snd].
    by rewrite executed_calls.
  - intros b history s. apply requestId_fresh, run_inv, new_XAPI_inv.
Qed.
End Requests.

Section Execute.
Context {B : Type} `{!Backend B}.
Variable normalizePath : Path → list Segment.
Variable createRequest : string → string → value → value.

(** C10.  In every reachable session, [execute] first allocates the id,
    then hands the envelope to the backend, and only then registers the
    entry: neither the session in which the backend is called nor the
    session it leaves behind has an entry under the allocated id.  When
    the backend returns, the entry is registered and the returned promise
    is pending.  When the backend throws, the returned promise is
    rejected with what was thrown, [this.requests] is as before the call,
    with no entry under the allocated id, and the counter has been
    incremented all the same. *)
Theorem execute_registers_after_handoff
    (b : B) (history : list Action) (method : string) (params : value) :
  let s := run createRequest history (new_XAPI b) in
  let id := num_toString (requestId s) in
  let p := length (promises s) in
  let request := createRequest id method params in
  let called := (nextRequestId (set_promises (λ l, l ++ [Pending]) s)).2 in
  let handed := backend_call request called in
  let s' := (execute createRequest method params s).2 in
  (execute createRequest method params s).1 = Normal p
  ∧ requests called !! id = None
  ∧ requests handed.2 !! id = None
  ∧ calls handed.2 = calls s ++ [BackendExecute request]
  ∧ handed.1 = match (backend_execute request (backend s)).1 with
               | None => Normal ()
               | Some e => Throw e
               end
  ∧ requestId s' = (requestId s + 1)%Z
  ∧ match handed.1 with
    | Normal _ =>
        s' = set_requests
               <[id := {| resolve := ResolveOf p; reject := RejectOf p |}]>
               handed.2
        ∧ promises s' !! p = Some Pending
    | Throw e =>
        promises s' !! p = Some (Rejected e)
        ∧ requests s' = requests s
        ∧ requests s' !! id = None
    end.
Proof.
  intros s id p request called handed s'.
  assert (Hfresh : requests s !! id = None)
    by apply requestId_fresh, run_inv, new_XAPI_inv.
  unfold s'. rewrite execute_eq. cbn [fst snd]. rewrite executed_requestId.
  unfold handed, called, backend_call, executed. simpl.
  fold id. fold request. fold p.
  destruct (backend_execute request (backend s)) as [[e|] b']; simpl;
    repeat split; try done.
  - by rewrite lookup_app_r, Nat.sub_diag by (unfold p; lia).
  - by rewrite lookup_app_r, Nat.sub_diag by (unfold p; lia).
Qed.

Lemma Object_assign_body (body : value) (props : gmap string value) :
  Object_assign {[ "body" := body ]} (VObj props)
  = VObj (<["body" := default body (props !! "body")]> props).
Proof.
  unfold Object_assign. simpl. f_equal. apply map_eq. intros key.
  rewrite lookup_union.
  destruct (decide (key = "body")) as [->|Hne].
  - rewrite lookup_insert_eq, lookup_singleton_eq.
    by destruct (props !! "body").
  - rewrite lookup_insert_ne, lookup_singleton_ne by done.
    by destruct (props !! key).
Qed.

(** C4.  [command] calls [execute] with the method "xCommand/" followed
    by the normalized path joined with slashes, and with [params] itself
    when [body] is [undefined], else with [Object.assign({ body }, params)]:
    the properties of [params] together with [body] (a [body] property
    of [params] itself takes precedence), and [{ body }] alone when
    [params] is [undefined].  With [normalizePath] and [createRequest] as
    the spec describes them, a fresh session hands the backend the
    envelope [{ id: "1", method: "xCommand/Presentation/Start" }] for
    [command("Presentation Start")], and then
    [{ id: "2", method: "xCommand/UserInterface/Extensions/Set",
       params: { body: "<Extensions/>", ConfigId: "x" } }]
    for [command("UserInterface Extensions Set", { ConfigId: "x" },
    "<Extensions/>")]. *)
Theorem command_builds_method_and_params :
  (∀ (path : Path) (params body : value) (s : Session B),
     command normalizePath createRequest path params body s
     = execute createRequest
         ("xCommand/" +:+ join "/" (normalizePath path))
         (if is_undefined body then params
          else Object_assign {[ "body" := body ]} params) s)
  ∧ (∀ (body : value) (props : gmap string value),
       Object_assign {[ "body" := body ]} (VObj props)
       = VObj (<["body" := default body (props !! "body")]> props))
  ∧ (∀ body : value,
       Object_assign {[ "body" := body ]} VUndefined
       = VObj {[ "body" := body ]})
  ∧ (∀ b : B,
       let s1 := (command spec_normalizePath spec_createRequest
                    (PathStr "Presentation Start") VUndefined VUndefined
                    (new_XAPI b)).2 in
       let s2 := (command spec_normalizePath spec_createRequest
                    (PathStr "UserInterface Extensions Set")
                    (VObj {[ "ConfigId" := VStr "x" ]})
                    (VStr "<Extensions/>") s1).2 in
       calls s2
       = [ BackendExecute
             (VObj {[ "id" := VStr "1";
                      "method" := VStr "xCommand/Presentation/Start" ]});
           BackendExecute
             (VObj {[ "id" := VStr "2";
                      "method" := VStr "xCommand/UserInterface/Extensions/Set";
                      "params" := VObj {[ "body" := VStr "<Extensions/>";
                                          "ConfigId" := VStr "x" ]} ]}) ]).
Proof.
  split; [done|]. split; [apply Object_assign_body|]. split.
  - intros body. unfold Object_assign. simpl.
    by rewrite (left_id_L ∅ (∪)).
  - intros b s1 s2. unfold s2, s1, command.
    rewrite !execute_eq. cbn [snd]. rewrite !executed_calls.
    rewrite executed_requestId. simpl calls. simpl requestId.
    rewrite Object_assign_body. simpl app.
    vm_compute. reflexivity.
Qed.

(** C6.  A component without a prefix normalizes a path as
    [normalizePath] does; a component with a prefix puts the prefix in
    front of the normalized path. *)
Theorem Component_normalizePath_prepends_prefix (path : Path) :
  Component_normalizePath normalizePath "" path = normalizePath path
  ∧ ∀ (c : ascii) (rest : string),
      Component_normalizePath normalizePath (String c rest) path
      = SegStr (String c rest) :: normalizePath path.
Proof. by split. Qed.

(** C7.  [get(path)] calls [execute] with "xGet" and [{ Path }], and
    [set(path, value)] with "xSet" and [{ Path, Value }], where [Path] is
    the path normalized by the function the mixin was constructed with;
    for [Config] and [Status] that function puts "Configuration",
    respectively "Status", in front of the normalized path. *)
Theorem get_and_set_call_execute
    (normalize : Path → list Segment) (path : Path) (v : value)
    (s : Session B) :
  GettableImpl_get createRequest normalize path s
  = execute createRequest "xGet"
      (VObj {[ "Path" := path_value (normalize path) ]}) s
  ∧ SettableImpl_set createRequest normalize path v s
    = execute createRequest "xSet"
        (VObj {[ "Path" := path_value (normalize path); "Value" := v ]}) s
  ∧ Config_get normalizePath createRequest path s
    = execute createRequest "xGet"
        (VObj {[ "Path" := path_value
                             (SegStr "Configuration" :: normalizePath path) ]}) s
  ∧ Config_set normalizePath createRequest path v s
    = execute createRequest "xSet"
        (VObj {[ "Path" := path_value
                             (SegStr "Configuration" :: normalizePath path);
                 "Value" := v ]}) s
  ∧ Status_get normalizePath createRequest path s
    = execute createRequest "xGet"
        (VObj {[ "Path" := path_value
                             (SegStr "Status" :: normalizePath path) ]}) s.
Proof. by repeat split. Qed.
End Execute.

(** ** The theorems at work *)

(** A session whose backend never throws: [get] is called, then a second
    request is issued, then the response to the first arrives with a
    result.  The first promise is fulfilled with it and the second is
    still pending. *)
Lemma handleResponse_settles_the_request_witness :
  let s0 := new_XAPI ([] : list (option exn)) in
  let s1 := (execute spec_createRequest "xGet"
               (VObj {[ "Path" := VArr [VStr "Status"; VStr "Audio"] ]}) s0).2 in
  let s2 := run spec_createRequest [CallExecute "xSet" VUndefined] s1 in
  ∃ s3,
    handleResponse (VObj {[ "id" := VStr "1"; "result" := VNum 50 ]}) s2
    = (Normal (), s3)
    ∧ promises s3 = [Fulfilled (VNum 50); Pending]
    ∧ requests s3 !! "1" = None.
Proof.
  intros s0 s1 s2.
  destruct (handleResponse_settles_the_request spec_createRequest
              ([] : list (option exn)) [] [CallExecute "xSet" VUndefined]
              "xGet" (VObj {[ "Path" := VArr [VStr "Status"; VStr "Audio"] ]})
              0 {[ "id" := VStr "1"; "result" := VNum 50 ]})
    as (_ & _ & s3 & Hs3 & Hrequests & Hresult & _ & _);
    [reflexivity..|].
  exists s3. split; [exact Hs3|]. split.
  - rewrite (Hresult (VNum 50)) by reflexivity. reflexivity.
  - rewrite Hrequests. apply lookup_delete_eq.
Defined.

(** C2, as the spec states it, fails.  A request is issued and answered;
    the same response is then delivered a second time.  Its id has no
    entry any more, and [handleResponse] does not return normally. *)
Lemma handleResponse_unknown_id_not_dropped :
  let response := VObj {[ "id" := VStr "1"; "result" := VNum 50 ]} in
  let s := run spec_createRequest
             [CallExecute "xGet" VUndefined; BackendEmits "data" [response]]
             (new_XAPI ([] : list (option exn))) in
  strict_eq_str (prop "method" response) "xFeedback/Event" = false
  ∧ requests s !! toString (prop "id" response) = None
  ∧ ¬ ∃ s', handleResponse response s = (Normal (), s').
Proof.
  intros response s. split; [reflexivity|]. split; [reflexivity|].
  intros [s' Hs']. vm_compute in Hs'. discriminate Hs'.
Qed.

(** A response to a request that was never issued. *)
Lemma handleResponse_unknown_id_throws_witness :
  let s := new_XAPI ([] : list (option exn)) in
  handleResponse (VObj {[ "id" := VStr "7"; "result" := VNum 1 ]}) s
  = (Throw TypeError, s).
Proof.
  intros s. apply handleResponse_unknown_id_throws; reflexivity.
Defined.

(** A response that carries an id and nothing else. *)
Lemma handleResponse_without_result_rejects_witness :
  let s := (execute spec_createRequest "xGet" VUndefined
              (new_XAPI ([] : list (option exn)))).2 in
  handleResponse (VObj {[ "id" := VStr "1" ]}) s
  = (Normal (),
     set_requests (delete "1")
       (set_promises <[0%nat := Rejected (Exn VUndefined)]> s)).
Proof.
  intros s.
  refine (proj1 (handleResponse_without_result_rejects
                   {[ "id" := VStr "1" ]} s 0 _ _ _ _));
    reflexivity.
Defined.

(** ** Examples *)

(** The three forms of a path give one sequence; the spec's [normalize]. *)
Example spec_normalizePath_forms :
  spec_normalizePath (PathStr "Audio Volume")
  = [SegStr "Audio"; SegStr "Volume"]
  ∧ spec_normalizePath (PathStr "Audio/Volume")
    = [SegStr "Audio"; SegStr "Volume"]
  ∧ spec_normalizePath (PathArr [SegStr "Audio"; SegStr "Volume"])
    = [SegStr "Audio"; SegStr "Volume"].
Proof. by repeat split. Qed.

(** Property keys: a numeric id and its decimal string name one entry. *)
Example toString_keys :
  toString (VNum 12) = "12"
  ∧ toString (VStr "12") = "12"
  ∧ toString VUndefined = "undefined"
  ∧ toString (VArr [VNum 1; VNull; VStr "a"]) = "1,,a".
Proof. by repeat split. Qed.

(** [status.get("Audio Volume")] on a fresh session. *)
Example Status_get_envelope :
  calls (Status_get spec_normalizePath spec_createRequest
           (PathStr "Audio Volume") (new_XAPI ([] : list (option exn)))).2
  = [BackendExecute
       (VObj {[ "id" := VStr "1"; "method" := VStr "xGet";
                "params" :=
                  VObj {[ "Path" := VArr [VStr "Status"; VStr "Audio";
                                          VStr "Volume"] ]} ]})].
Proof. vm_compute. reflexivity. Qed.

(** A backend that throws on the first request: the promise is rejected
    with what was thrown, nothing is pending, and the second request gets
    the id "2". *)
Example execute_backend_throws :
  let offline := Exn (VError "Error" "offline") in
  let s := (executes spec_createRequest
              [("xGet", VUndefined); ("xGet", VUndefined)]
              (new_XAPI [Some offline])).2 in
  promises s = [Rejected offline; Pending]
  ∧ requests s !! "1" = None
  ∧ requests s !! "2"
    = Some {| resolve := ResolveOf 1; reject := RejectOf 1 |}
  ∧ requestId s = 3%Z.
Proof. by repeat split. Qed.

(** An error response rejects the promise of its request and of no other. *)
Example handleResponse_error_response :
  let s := run spec_createRequest
             [CallExecute "xGet" VUndefined; CallExecute "xSet" VUndefined;
              BackendEmits "data"
                [VObj {[ "id" := VStr "2"; "error" := VStr "denied" ]}]]
             (new_XAPI ([] : list (option exn))) in
  promises s = [Pending; Rejected (Exn (VStr "denied"))]
  ∧ requests s !! "2" = None
  ∧ requests s !! "1"
    = Some {| resolve := ResolveOf 0; reject := RejectOf 0 |}.
Proof. by repeat split. Qed.

(** A feedback event reaches the dispatcher and leaves the requests alone. *)
Example handleResponse_feedback_event :
  let event := VObj {[ "method" := VStr "xFeedback/Event";
                       "params" := VObj {[ "Status" := VNum 1 ]} ]} in
  let s := run spec_createRequest
             [CallExecute "xGet" VUndefined; BackendEmits "data" [event]]
             (new_XAPI ([] : list (option exn))) in
  last (calls s) = Some (FeedbackDispatch (VObj {[ "Status" := VNum 1 ]}))
  ∧ promises s = [Pending]
  ∧ is_Some (requests s !! "1").
Proof. repeat split. by eexists. Qed.

(** ** Histories *)

Section Histories.
Context {B : Type} `{!Backend B}.
Variable createRequest : string → string → value → value.

Lemma handleResponse_cases (response : value) (s : Session B) :
  let feedback := strict_eq_str (prop "method" response) "xFeedback/Event" in
  let entry := requests s !! toString (prop "id" response) in
  (handleResponse response s = (Throw TypeError, s)
   ∧ (is_nullish response = true ∨ (feedback = false ∧ entry = None)))
  ∨ (handleResponse response s
     = (Normal (), record_call (FeedbackDispatch (prop "params" response)) s)
     ∧ is_nullish response = false ∧ feedback = true)
  ∨ (∃ e, handleResponse response s = (Normal (), correlated response e s)
          ∧ is_nullish response = false ∧ feedback = false ∧ entry = Some e).
Proof.
  intros feedback entry. destruct (is_nullish response) eqn:Hn.
  - left. split; [by apply handleResponse_nullish|by left].
  - rewrite handleResponse_value by done. fold feedback. fold entry.
    destruct feedback; [right; left; done|].
    destruct entry as [e|]; [right; right; by exists e|left].
    split; [done|by right].
Qed.

Lemma nullish_no_method (response : value) :
  is_nullish response = true →
  strict_eq_str (prop "method" response) "xFeedback/Event" = false.
Proof. by destruct response. Qed.

Lemma settle_length (p : nat) (st : PromiseState) (l : list PromiseState) :
  length (settle p st l) = length l.
Proof.
  unfold settle. destruct (l !! p) as [[]|]; try done. apply length_insert.
Qed.

Lemma settle_with_length (f : Callback) (v : value) (l : list PromiseState) :
  length (settle_with f v l) = length l.
Proof. destruct f; apply settle_length. Qed.

Lemma correlated_promises (response : value) (e : PendingRequest)
    (s : Session B) :
  ∃ f v, promises (correlated response e s) = settle_with f v (promises s).
Proof. unfold correlated. destruct (hasOwnProperty _ _); by eexists _, _. Qed.

(** What one action adds to the call log. *)
Lemma step_calls (s : Session B) (a : Action) :
  calls (step createRequest s a)
  = calls s
    ++ match a with
       | CallExecute method params =>
           [BackendExecute
              (createRequest (num_toString (requestId s)) method params)]
       | BackendEmits _ _ =>
           match signal a with
           | Some (event, args) => [Emit event args]
           | None => option_list (FeedbackDispatch <$> feedback_params a)
           end
       end.
Proof.
  destruct a as [method params|event args]; simpl.
  - rewrite execute_eq. cbn [snd]. apply executed_calls.
  - unfold backend_emits.
    destruct (String.eqb event "close"); [done|].
    destruct (String.eqb event "error"); [done|].
    destruct (String.eqb event "ready"); [done|].
    destruct (String.eqb event "data"); simpl; [|by rewrite app_nil_r].
    set (response := default VUndefined (head args)).
    destruct (handleResponse_cases response s)
      as [[-> Hc]|[(-> & _ & ->)|(e & -> & _ & -> & _)]]; simpl.
    + destruct Hc as [Hn|[-> _]]; [rewrite nullish_no_method by done|];
        simpl; by rewrite app_nil_r.
    + done.
    + by rewrite app_nil_r.
Qed.

Lemma step_requestId (s : Session B) (a : Action) :
  requestId (step createRequest s a)
  = (requestId s + match a with CallExecute _ _ => 1 | _ => 0 end)%Z.
Proof.
  destruct a as [method params|event args]; simpl.
  - rewrite execute_eq. cbn [snd]. apply executed_requestId.
  - rewrite Z.add_0_r. unfold backend_emits.
    destruct (String.eqb event "close"); [done|].
    destruct (String.eqb event "error"); [done|].
    destruct (String.eqb event "ready"); [done|].
    destruct (String.eqb event "data"); [|done].
    destruct (handleResponse_cases (default VUndefined (head args)) s)
      as [[-> _]|[(-> & _)|(e & -> & _)]]; done.
Qed.

Lemma step_promises_length (s : Session B) (a : Action) :
  length (promises (step createRequest s a))
  = (length (promises s)
     + match a with CallExecute _ _ => 1 | _ => 0 end)%nat.
Proof.
  destruct a as [method params|event args]; simpl.
  - rewrite execute_eq. cbn [snd]. unfold executed.
    destruct (backend_execute _ _) as [[e|] b]; simpl;
      by rewrite length_app.
  - rewrite Nat.add_0_r. unfold backend_emits.
    destruct (String.eqb event "close"); [done|].
    destruct (String.eqb event "error"); [done|].
    destruct (String.eqb event "ready"); [done|].
    destruct (String.eqb event "data"); [|done].
    destruct (handleResponse_cases (default VUndefined (head args)) s)
      as [[-> _]|[(-> & _)|(e & -> & _)]]; try done.
    cbn [snd]. destruct (correlated_promises (default VUndefined (head args)) e s)
      as (f & v & ->). apply settle_with_length.
Qed.

Lemma step_keeps_retired (s : Session B) (a : Action) (n : Z) :
  (n < requestId s)%Z → requests s !! num_toString n = None →
  requests (step createRequest s a) !! num_toString n = None.
Proof.
  intros Hn Hk. destruct a as [method params|event args]; simpl.
  - rewrite execute_eq. cbn [snd]. unfold executed.
    destruct (backend_execute _ _) as [[e|] b]; simpl; [done|].
    rewrite lookup_insert_ne; [done|].
    intros E. apply num_toString_inj in E. lia.
  - unfold backend_emits.
    destruct (String.eqb event "close"); [done|].
    destruct (String.eqb event "error"); [done|].
    destruct (String.eqb event "ready"); [done|].
    destruct (String.eqb event "data"); [|done].
    destruct (handleResponse_cases (default VUndefined (head args)) s)
      as [[-> _]|[(-> & _)|(e & -> & _)]]; try done.
    unfold correlated. simpl. apply lookup_delete_None. by right.
Qed.
End Histories.

(** ** What a session keeps over its whole history *)

Section Kept.
Context {B : Type} `{!Backend B}.
Variable createRequest : string → string → value → value.

Lemma new_XAPI_accounting (b : B) : session_accounting (new_XAPI b).
Proof.
  split; [done|]. split.
  - intros key [e He]. simpl in He. by rewrite lookup_empty in He.
  - intros p Hp. by destruct p.
Qed.

Lemma executed_accounting (method : string) (params : value) (s : Session B) :
  session_inv s → session_accounting s →
  session_accounting (executed createRequest method params s).
Proof.
  intros Hinv (Hpos & Hkeys & Hpend).
  pose proof (requestId_fresh s Hinv) as Hfresh.
  unfold executed.
  destruct (backend_execute _ (backend s)) as [[e|] b];
    (split; [simpl; lia|]); split; simpl.
  - exact Hkeys.
  - intros p Hp.
    destruct (decide (p < length (promises s))%nat) as [Hlt|Hge].
    + rewrite lookup_app_l in Hp by done. by apply Hpend.
    + rewrite lookup_app_r in Hp by lia.
      destruct (p - length (promises s))%nat; [done|by destruct n].
  - intros key Hk.
    destruct (decide (key = num_toString (requestId s))) as [->|Hne].
    + by exists (requestId s).
    + rewrite lookup_insert_ne in Hk by done. by apply Hkeys.
  - intros p Hp.
    destruct (decide (p < length (promises s))%nat) as [Hlt|Hge].
    + rewrite lookup_app_l in Hp by done.
      destruct (Hpend _ Hp) as [key Hkey]. exists key.
      rewrite lookup_insert_ne; [done|]. intros <-. congruence.
    + rewrite lookup_app_r in Hp by lia.
      destruct (p - length (promises s))%nat eqn:Hd;
        [|by destruct n].
      assert (p = length (promises s)) as -> by lia.
      exists (num_toString (requestId s)). by rewrite lookup_insert_eq.
Qed.

Lemma correlated_accounting (response : value) (e : PendingRequest)
    (s : Session B) :
  session_inv s → session_accounting s →
  requests s !! toString (prop "id" response) = Some e →
  session_accounting (correlated response e s).
Proof.
  intros [Hent Hinj] (Hpos & Hkeys & Hpend) Hkey.
  destruct (Hent _ _ Hkey) as (n0 & p0 & Hk0 & Hn0 & -> & Hp0).
  assert (Hsettled : ∃ st, st ≠ Pending
            ∧ promises (correlated response
                {| resolve := ResolveOf p0; reject := RejectOf p0 |} s)
              = <[p0 := st]> (promises s)).
  { unfold correlated. simpl.
    destruct (hasOwnProperty _ _); simpl; eexists;
      (split; [|by apply settle_pending]); done. }
  destruct Hsettled as (st & Hst & Hpromises).
  split; [done|]. split.
  - intros key [e He]. unfold correlated in He. simpl in He.
    apply lookup_delete_Some in He as [_ He]. apply Hkeys. by exists e.
  - intros p Hp. rewrite Hpromises in Hp.
    destruct (decide (p = p0)) as [->|Hne].
    + rewrite list_lookup_insert_eq in Hp by (by eapply lookup_lt_Some).
      congruence.
    + rewrite list_lookup_insert_ne in Hp by done.
      destruct (Hpend _ Hp) as [key Hk]. exists key.
      unfold correlated. simpl. apply lookup_delete_Some. split; [|done].
      intros <-. rewrite Hkey in Hk. congruence.
Qed.

Lemma step_accounting (s : Session B) (a : Action) :
  session_inv s → session_accounting s →
  session_accounting (step createRequest s a).
Proof.
  intros Hinv Hacc. destruct a as [method params|event args]; simpl.
  - rewrite execute_eq. by apply executed_accounting.
  - unfold backend_emits.
    destruct (String.eqb event "close"); [exact Hacc|].
    destruct (String.eqb event "error"); [exact Hacc|].
    destruct (String.eqb event "ready"); [exact Hacc|].
    destruct (String.eqb event "data"); [|exact Hacc].
    destruct (handleResponse_cases (default VUndefined (head args)) s)
      as [[-> _]|[(-> & _)|(e & -> & _ & _ & He)]]; try exact Hacc.
    by apply correlated_accounting.
Qed.

Lemma run_accounting (history : list Action) (s : Session B) :
  session_inv s → session_accounting s →
  session_accounting (run createRequest history s).
Proof.
  revert s. induction history as [|a history IH]; intros s Hinv Hacc; [done|].
  apply IH; [by apply step_inv|by apply step_accounting].
Qed.

(** X1.  In every session that a history of calls and backend events can
    reach, every entry of [this.requests] sits under the decimal string of
    a number from 1 up to (excluding) the counter, holds the two resolving
    functions of one promise, that promise is still pending, and no other
    key holds the same entry. *)
Theorem reachable_entry_is_pending
    (b : B) (history : list Action) (key : string) (entry : PendingRequest) :
  let s := run createRequest history (new_XAPI b) in
  requests s !! key = Some entry →
  ∃ n p, key = num_toString n ∧ (1 ≤ n < requestId s)%Z
         ∧ entry = {| resolve := ResolveOf p; reject := RejectOf p |}
         ∧ promises s !! p = Some Pending
         ∧ ∀ key', requests s !! key' = Some entry → key' = key.
Proof.
  intros s Hk.
  assert (Hinv : session_inv s) by apply run_inv, new_XAPI_inv.
  assert (Hacc : session_accounting s)
    by (apply run_accounting;
        [apply new_XAPI_inv|apply new_XAPI_accounting]).
  destruct Hinv as [Hent Hinj]. destruct Hacc as (_ & Hkeys & _).
  destruct (Hent _ _ Hk) as (n & p & -> & Hn & -> & Hp).
  destruct (Hkeys (num_toString n)) as (n' & E & Hn'); [by eexists|].
  apply num_toString_inj in E as <-.
  exists n, p. repeat split; try done.
  intros key' Hk'. by eapply Hinj.
Qed.

(** X2.  In every reachable session, a promise returned by [execute] that
    is still pending has its entry in [this.requests]: no pending promise
    is ever left without the means to settle it. *)
Theorem reachable_pending_promise_has_entry
    (b : B) (history : list Action) (p : nat) :
  let s := run createRequest history (new_XAPI b) in
  promises s !! p = Some Pending →
  ∃ n, (1 ≤ n < requestId s)%Z
       ∧ requests s !! num_toString n
         = Some {| resolve := ResolveOf p; reject := RejectOf p |}.
Proof.
  intros s Hp.
  assert (Hinv : session_inv s) by apply run_inv, new_XAPI_inv.
  assert (Hacc : session_accounting s)
    by (apply run_accounting;
        [apply new_XAPI_inv|apply new_XAPI_accounting]).
  destruct Hacc as (_ & Hkeys & Hpend). destruct Hinv as [Hent _].
  destruct (Hpend _ Hp) as [key Hk].
  destruct (Hent _ _ Hk) as (n & p' & -> & Hn & _).
  destruct (Hkeys (num_toString n)) as (n' & E & Hn'); [by eexists|].
  apply num_toString_inj in E as <-.
  exists n. split; [lia|done].
Qed.

(** X4.  The counter counts the calls of [execute] and nothing else: after
    any history a fresh session has [requestId] one above the number of
    [execute] calls made, whether or not the backend threw on them and
    whatever responses and events arrived; one promise was created per
    call. *)
Theorem requestId_counts_execute_calls (b : B) (history : list Action) :
  let s := run createRequest history (new_XAPI b) in
  requestId s = (1 + Z.of_nat (length (execute_calls history)))%Z
  ∧ length (promises s) = length (execute_calls history).
Proof.
  cbv zeta.
  assert (Hgen : ∀ s : Session B,
    requestId (run createRequest history s)
    = (requestId s + Z.of_nat (length (execute_calls history)))%Z
    ∧ length (promises (run createRequest history s))
      = (length (promises s) + length (execute_calls history))%nat).
  { induction history as [|a history IH]; intros s.
    - simpl. split; lia.
    - simpl run. destruct (IH (step createRequest s a)) as [-> ->].
      rewrite step_requestId, step_promises_length.
      destruct a; simpl; split; lia. }
  destruct (Hgen (new_XAPI b)) as [-> ->]. by split.
Qed.

(** X11.  A request id is never reused: once the counter has passed a
    number and no entry sits under it (the request was answered, or its
    send failed), no later call or event ever registers an entry under it
    again, and a response that carries it finds none and throws. *)
Theorem retired_id_never_pending_again
    (s : Session B) (history : list Action) (n : Z)
    (props : gmap string value) :
  let s' := run createRequest history s in
  (n < requestId s)%Z →
  requests s !! num_toString n = None →
  requests s' !! num_toString n = None
  ∧ (strict_eq_str (prop "method" (VObj props)) "xFeedback/Event" = false →
     toString (prop "id" (VObj props)) = num_toString n →
     handleResponse (VObj props) s' = (Throw TypeError, s')).
Proof.
  intros s' Hn Hk.
  assert (Hgone : requests s' !! num_toString n = None).
  { unfold s'. clear s'. revert s Hn Hk.
    induction history as [|a history IH]; intros s Hn Hk; [done|].
    apply IH; [|by apply step_keeps_retired].
    rewrite step_requestId. destruct a; lia. }
  split; [done|]. intros Hmethod Hid.
  pose proof (handleResponse_eq props s') as Heq. cbv zeta in Heq.
  by rewrite Heq, Hmethod, Hid, Hgone.
Qed.
End Kept.

(** ** What the collaborators see *)

Section Seen.
Context {B : Type} `{!Backend B}.
Variable createRequest : string → string → value → value.

Lemma next_ids_requestId (s s' : Session B) (n : nat) :
  requestId s' = requestId s → next_ids s' n = next_ids s n.
Proof. intros E. unfold next_ids. by rewrite E. Qed.

Lemma run_backend_requests (history : list Action) (s : Session B) :
  backend_requests (calls (run createRequest history s))
  = backend_requests (calls s)
    ++ zip_with (λ id '(method, params), createRequest id method params)
         (next_ids s (length (execute_calls history)))
         (execute_calls history).
Proof.
  revert s. induction history as [|a history IH]; intros s.
  - simpl. by rewrite app_nil_r.
  - simpl run. rewrite IH, step_calls.
    unfold backend_requests at 1. rewrite omap_app. fold (backend_requests (calls s)).
    rewrite <- app_assoc. f_equal.
    destruct a as [method params|event args].
    + change (execute_calls (CallExecute method params :: history))
        with ((method, params) :: execute_calls history).
      change (length ((method, params) :: execute_calls history))
        with (S (length (execute_calls history))).
      rewrite (next_ids_S s (step createRequest s (CallExecute method params)))
        by apply step_requestId.
      reflexivity.
    + change (execute_calls (BackendEmits event args :: history))
        with (execute_calls history).
      rewrite (next_ids_requestId s)
        by (rewrite step_requestId; lia).
      replace (omap _ _) with (@nil value); [done|].
      destruct (signal _) as [[ev ar]|]; [done|].
      by destruct (feedback_params _).
Qed.

(** X5.  Over any history of a freshly constructed session, with
    responses, feedback and lifecycle events arriving between the calls,
    the backend is handed one envelope per call of [execute], in call
    order, and the k-th of them carries the k-th id, counted from "1":
    events never consume or disturb an id. *)
Theorem backend_sees_execute_calls_in_order
    (b : B) (history : list Action) :
  backend_requests (calls (run createRequest history (new_XAPI b)))
  = zip_with (λ id '(method, params), createRequest id method params)
      (next_ids (new_XAPI b) (length (execute_calls history)))
      (execute_calls history).
Proof. by rewrite run_backend_requests. Qed.

(** X6.  The feedback dispatcher is called exactly once for each [data]
    event whose payload has the method "xFeedback/Event", with the
    [params] of that payload and in arrival order; nothing else in a
    history ever reaches it. *)
Theorem dispatcher_sees_feedback_in_order
    (history : list Action) (s : Session B) :
  dispatched (calls (run createRequest history s))
  = dispatched (calls s) ++ omap feedback_params history.
Proof.
  revert s. induction history as [|a history IH]; intros s.
  - simpl. by rewrite app_nil_r.
  - simpl run. rewrite IH, step_calls.
    unfold dispatched at 1. rewrite omap_app. fold (dispatched (calls s)).
    rewrite <- app_assoc. f_equal.
    destruct a as [method params|event args]; [done|].
    change (BackendEmits event args :: history)
      with ([BackendEmits event args] ++ history).
    rewrite (omap_app _ [_] history). f_equal.
    destruct (signal (BackendEmits event args)) as [[ev ar]|] eqn:Hsig.
    + assert (Hnone : feedback_params (BackendEmits event args) = None).
      { unfold signal in Hsig. unfold feedback_params.
        destruct (String.eqb event "close") eqn:E1.
        { apply String.eqb_eq in E1 as ->. done. }
        destruct (String.eqb event "error") eqn:E2.
        { apply String.eqb_eq in E2 as ->. done. }
        destruct (String.eqb event "ready") eqn:E3; [|done].
        apply String.eqb_eq in E3 as ->. done. }
      change (omap feedback_params [BackendEmits event args])
        with (match feedback_params (BackendEmits event args) with
              | Some y => [y]
              | None => []
              end).
      by rewrite Hnone.
    + change (omap feedback_params [BackendEmits event args])
        with (match feedback_params (BackendEmits event args) with
              | Some y => [y]
              | None => []
              end).
      by destruct (feedback_params _).
Qed.

(** X7.  The observers of the session see exactly the [close], [error]
    and [ready] events of the backend, one emission each and in arrival
    order; calls of [execute], responses and feedback never emit. *)
Theorem observers_see_signals_in_order
    (history : list Action) (s : Session B) :
  emitted (calls (run createRequest history s))
  = emitted (calls s) ++ omap signal history.
Proof.
  revert s. induction history as [|a history IH]; intros s.
  - simpl. by rewrite app_nil_r.
  - simpl run. rewrite IH, step_calls.
    unfold emitted at 1. rewrite omap_app. fold (emitted (calls s)).
    rewrite <- app_assoc. f_equal.
    destruct a as [method params|event args]; [done|].
    change (BackendEmits event args :: history)
      with ([BackendEmits event args] ++ history).
    rewrite (omap_app _ [_] history). f_equal.
    change (omap signal [BackendEmits event args])
      with (match signal (BackendEmits event args) with
            | Some y => [y]
            | None => []
            end).
    destruct (signal (BackendEmits event args)) as [[ev ar]|]; [done|].
    by destruct (feedback_params _).
Qed.

(** X8.  On a payload whose method is not "xFeedback/Event", so that the
    feedback dispatcher is not called, [handleResponse] throws nothing but
    a [TypeError], and it throws exactly when the payload is [undefined]
    or [null] or its id has no entry; whenever it throws, the session is
    exactly as it was. *)
Theorem handleResponse_throws_exactly_when
    (response : value) (s : Session B) :
  let entry := requests s !! toString (prop "id" response) in
  strict_eq_str (prop "method" response) "xFeedback/Event" = false →
  match handleResponse response s with
  | (Throw e, s') =>
      e = TypeError ∧ s' = s ∧ (is_nullish response = true ∨ entry = None)
  | (Normal _, s') => is_nullish response = false ∧ is_Some entry
  end.
Proof.
  intros entry Hmethod.
  destruct (handleResponse_cases response s)
    as [[-> Hc]|[(-> & Hn & Hf)|(e & -> & Hn & Hf & He)]].
  - repeat split. destruct Hc as [Hn|[_ He]]; [by left|by right].
  - congruence.
  - split; [done|]. by exists e.
Qed.

(** X10.  A request that is answered leaves no trace in [this.requests]:
    in every reachable session, [execute] followed by the response to it
    gives back the map of pending requests as it was before the call, and
    the promise of the call is settled. *)
Theorem answered_request_leaves_no_entry
    (b : B) (history : list Action) (method : string) (params : value)
    (props : gmap string value) :
  let s := run createRequest history (new_XAPI b) in
  let id := num_toString (requestId s) in
  let s1 := (execute createRequest method params s).2 in
  (backend_execute (createRequest id method params) (backend s)).1 = None →
  strict_eq_str (prop "method" (VObj props)) "xFeedback/Event" = false →
  toString (prop "id" (VObj props)) = id →
  ∃ s2, handleResponse (VObj props) s1 = (Normal (), s2)
        ∧ requests s2 = requests s
        ∧ ∃ st, promises s2 = promises s ++ [st] ∧ st ≠ Pending.
Proof.
  intros s id s1 Hsent Hmethod Hid.
  assert (Hfresh : requests s !! id = None)
    by apply requestId_fresh, run_inv, new_XAPI_inv.
  pose proof (handleResponse_eq props s1) as Heq. cbv zeta in Heq.
  rewrite Hmethod, Hid in Heq. unfold s1 in Heq |- *.
  rewrite execute_eq in Heq |- *. cbn [snd] in Heq |- *.
  unfold executed in Heq |- *. fold id in Heq |- *.
  destruct (backend_execute _ (backend s)) as [[e|] b']; [done|].
  simpl in Heq. rewrite lookup_insert_eq in Heq.
  eexists. split; [exact Heq|].
  unfold correlated. rewrite Hid. simpl. split.
  - by apply delete_insert_id.
  - destruct (bool_decide _); simpl; eexists;
      (split; [apply settle_fresh|done]).
Qed.
End Seen.


(** ** The history theorems at work *)

(** Two requests are pending; the second sits under "2" and holds promise 1. *)
Lemma reachable_entry_is_pending_witness :
  let s := run spec_createRequest
             [CallExecute "xGet" VUndefined; CallExecute "xSet" VUndefined]
             (new_XAPI ([] : list (option exn))) in
  let entry := {| resolve := ResolveOf 1; reject := RejectOf 1 |} in
  ∃ n p, "2" = num_toString n ∧ (1 ≤ n < requestId s)%Z
         ∧ entry = {| resolve := ResolveOf p; reject := RejectOf p |}
         ∧ promises s !! p = Some Pending
         ∧ ∀ key', requests s !! key' = Some entry → key' = "2".
Proof.
  intros s entry.
  apply (reachable_entry_is_pending spec_createRequest []
           [CallExecute "xGet" VUndefined; CallExecute "xSet" VUndefined]
           "2" entry).
  reflexivity.
Defined.

(** The first of two requests was answered; the pending promise is the
    second, and its entry is there. *)
Lemma reachable_pending_promise_has_entry_witness :
  let s := run spec_createRequest
             [CallExecute "xGet" VUndefined; CallExecute "xSet" VUndefined;
              BackendEmits "data"
                [VObj {[ "id" := VStr "1"; "result" := VNum 5 ]}]]
             (new_XAPI ([] : list (option exn))) in
  ∃ n, (1 ≤ n < requestId s)%Z
       ∧ requests s !! num_toString n
         = Some {| resolve := ResolveOf 1; reject := RejectOf 1 |}.
Proof.
  intros s.
  apply (reachable_pending_promise_has_entry spec_createRequest []
           [CallExecute "xGet" VUndefined; CallExecute "xSet" VUndefined;
            BackendEmits "data"
              [VObj {[ "id" := VStr "1"; "result" := VNum 5 ]}]] 1).
  reflexivity.
Defined.

(** One request is pending; a response to a request that was never issued
    throws a [TypeError] and leaves the session as it was. *)
Lemma handleResponse_throws_exactly_when_witness :
  let s := (execute spec_createRequest "xGet" VUndefined
              (new_XAPI ([] : list (option exn)))).2 in
  let response := VObj {[ "id" := VStr "9"; "result" := VNum 5 ]} in
  match handleResponse response s with
  | (Throw e, s') =>
      e = TypeError ∧ s' = s
      ∧ (is_nullish response = true
         ∨ requests s !! toString (prop "id" response) = None)
  | (Normal _, s') =>
      is_nullish response = false
      ∧ is_Some (requests s !! toString (prop "id" response))
  end.
Proof.
  intros s response.
  apply (handleResponse_throws_exactly_when response s).
  reflexivity.
Defined.

(** With one request pending, a second is issued and answered: the map of
    pending requests is as before the second call. *)
Lemma answered_request_leaves_no_entry_witness :
  let s := run spec_createRequest [CallExecute "xGet" VUndefined]
             (new_XAPI ([] : list (option exn))) in
  let s1 := (execute spec_createRequest "xSet" VUndefined s).2 in
  ∃ s2,
    handleResponse (VObj {[ "id" := VStr "2"; "result" := VStr "ok" ]}) s1
    = (Normal (), s2)
    ∧ requests s2 = requests s
    ∧ ∃ st, promises s2 = promises s ++ [st] ∧ st ≠ Pending.
Proof.
  intros s s1.
  apply (answered_request_leaves_no_entry spec_createRequest
           ([] : list (option exn)) [CallExecute "xGet" VUndefined]
           "xSet" VUndefined {[ "id" := VStr "2"; "result" := VStr "ok" ]});
    reflexivity.
Defined.

(** The send of request "1" failed; two requests later a response to "1"
    arrives and finds no entry. *)
Lemma retired_id_never_pending_again_witness :
  let s := (execute spec_createRequest "xGet" VUndefined
              (new_XAPI [Some (Exn (VError "Error" "offline"))])).2 in
  let s' := run spec_createRequest
              [CallExecute "xGet" VUndefined; CallExecute "xSet" VUndefined]
              s in
  let response := VObj {[ "id" := VStr "1"; "result" := VNum 5 ]} in
  requests s' !! "1" = None
  ∧ handleResponse response s' = (Throw TypeError, s').
Proof.
  intros s s' response.
  destruct (retired_id_never_pending_again spec_createRequest s
              [CallExecute "xGet" VUndefined; CallExecute "xSet" VUndefined]
              1 {[ "id" := VStr "1"; "result" := VNum 5 ]})
    as [Hgone Hthrows]; [reflexivity..|].
  split; [exact Hgone|]. apply Hthrows; reflexivity.
Defined.

(** ** Responses out of order *)

Section Order.
Context {B : Type} `{!Backend B}.
Variable createRequest : string → string → value → value.

Lemma settle_commute (p1 p2 : nat) (st1 st2 : PromiseState)
    (l : list PromiseState) :
  p1 ≠ p2 →
  settle p2 st2 (settle p1 st1 l) = settle p1 st1 (settle p2 st2 l).
Proof.
  intros Hne. unfold settle.
  destruct (l !! p1) as [[]|] eqn:H1; destruct (l !! p2) as [[]|] eqn:H2;
    rewrite ?list_lookup_insert_ne, ?H1, ?H2 by done; try done.
  by apply list_insert_insert_ne.
Qed.

(** X13.  Responses may arrive in any order: in every reachable session,
    two correlated responses to two different pending requests are both
    handled normally, and the session they leave is the same whichever of
    them arrives first. *)
Theorem responses_commute
    (b : B) (history : list Action) (props1 props2 : gmap string value) :
  let s := run createRequest history (new_XAPI b) in
  let r1 := VObj props1 in
  let r2 := VObj props2 in
  strict_eq_str (prop "method" r1) "xFeedback/Event" = false →
  strict_eq_str (prop "method" r2) "xFeedback/Event" = false →
  is_Some (requests s !! toString (prop "id" r1)) →
  is_Some (requests s !! toString (prop "id" r2)) →
  toString (prop "id" r1) ≠ toString (prop "id" r2) →
  ∃ s', handleResponse r2 (handleResponse r1 s).2 = (Normal (), s')
        ∧ handleResponse r1 (handleResponse r2 s).2 = (Normal (), s')
        ∧ (handleResponse r1 s).1 = Normal ()
        ∧ (handleResponse r2 s).1 = Normal ().
Proof.
  intros s r1 r2 Hm1 Hm2 [e1 He1] [e2 He2] Hne.
  assert (Hinv : session_inv s) by apply run_inv, new_XAPI_inv.
  destruct Hinv as [Hent Hinj].
  destruct (Hent _ _ He1) as (n1 & p1 & _ & _ & -> & Hp1).
  destruct (Hent _ _ He2) as (n2 & p2 & _ & _ & -> & Hp2).
  assert (Hp : p1 ≠ p2).
  { intros ->. by apply Hne, (Hinj _ _ _ _ He1 He2). }
  pose proof (handleResponse_eq props1 s) as H1. cbv zeta in H1.
  pose proof (handleResponse_eq props2 s) as H2. cbv zeta in H2.
  fold r1 in H1. fold r2 in H2.
  rewrite Hm1, He1 in H1. rewrite Hm2, He2 in H2. rewrite H1, H2. cbn [fst snd].
  set (e1 := {| resolve := ResolveOf p1; reject := RejectOf p1 |}) in *.
  set (e2 := {| resolve := ResolveOf p2; reject := RejectOf p2 |}) in *.
  pose proof (handleResponse_eq props2 (correlated r1 e1 s)) as H21.
  pose proof (handleResponse_eq props1 (correlated r2 e2 s)) as H12.
  cbv zeta in H21, H12. fold r1 in H12. fold r2 in H21.
  rewrite Hm2 in H21. rewrite Hm1 in H12.
  assert (He2' : requests (correlated r1 e1 s) !! toString (prop "id" r2)
                 = Some e2).
  { unfold correlated. simpl requests. by rewrite lookup_delete_ne. }
  assert (He1' : requests (correlated r2 e2 s) !! toString (prop "id" r1)
                 = Some e1).
  { unfold correlated. simpl requests. by rewrite lookup_delete_ne. }
  rewrite He2' in H21. rewrite He1' in H12. rewrite H21, H12.
  eexists. split; [reflexivity|]. split; [|done]. f_equal.
  unfold correlated, set_requests, set_promises. simpl. f_equal.
  - apply delete_delete.
  - destruct (bool_decide (is_Some (props1 !! "result"))),
      (bool_decide (is_Some (props2 !! "result")));
      apply settle_commute; congruence.
Qed.
End Order.

(** Three requests are pending; the responses to the third and to the
    first arrive in either order. *)
Lemma responses_commute_witness :
  let s := run spec_createRequest
             [CallExecute "xGet" VUndefined; CallExecute "xSet" VUndefined;
              CallExecute "xGet" VUndefined]
             (new_XAPI ([] : list (option exn))) in
  let r1 := VObj {[ "id" := VStr "3"; "result" := VNum 5 ]} in
  let r2 := VObj {[ "id" := VStr "1"; "error" := VStr "denied" ]} in
  ∃ s', handleResponse r2 (handleResponse r1 s).2 = (Normal (), s')
        ∧ handleResponse r1 (handleResponse r2 s).2 = (Normal (), s')
        ∧ (handleResponse r1 s).1 = Normal ()
        ∧ (handleResponse r2 s).1 = Normal ().
Proof.
  intros s r1 r2.
  apply (responses_commute spec_createRequest ([] : list (option exn))
           [CallExecute "xGet" VUndefined; CallExecute "xSet" VUndefined;
            CallExecute "xGet" VUndefined]
           {[ "id" := VStr "3"; "result" := VNum 5 ]}
           {[ "id" := VStr "1"; "error" := VStr "denied" ]});
    try reflexivity.
  - by eexists.
  - by eexists.
  - discriminate.
Defined.
